(** * Verification of the vector-store synchronisation layer

    A shallow embedding of [src/vector_store.py] (class
    [VectorStoreManager]) together with models of the collaborators it
    calls: [hashlib.sha256], the [json] cache file and the Chroma
    vector store. *)

From Stdlib Require Import ZArith Lia Strings.Byte Ascii String.
From stdpp Require Import base option list strings gmap fin_maps.

Local Open Scope Z_scope.

(** ** hashlib.sha256

    [_get_file_hash] returns [hashlib.sha256(content).hexdigest()].  The
    digest is the FIPS 180-4 SHA-256 function; it is written out here on
    32-bit words carried in [Z], each operation reduced modulo [2^32]. *)

Module SHA256.

Definition wrap (x : Z) : Z := x mod 2 ^ 32.

Definition add32 (x y : Z) : Z := wrap (x + y).

Definition rotr (n x : Z) : Z :=
  Z.lor (Z.shiftr x n) (wrap (Z.shiftl x (32 - n))).

Definition not32 (x : Z) : Z := Z.lxor x 0xffffffff.

Definition Ch (x y z : Z) : Z :=
  Z.lxor (Z.land x y) (Z.land (not32 x) z).

Definition Maj (x y z : Z) : Z :=
  Z.lxor (Z.lxor (Z.land x y) (Z.land x z)) (Z.land y z).

Definition Sigma0 (x : Z) : Z :=
  Z.lxor (Z.lxor (rotr 2 x) (rotr 13 x)) (rotr 22 x).

Definition Sigma1 (x : Z) : Z :=
  Z.lxor (Z.lxor (rotr 6 x) (rotr 11 x)) (rotr 25 x).

Definition sigma0 (x : Z) : Z :=
  Z.lxor (Z.lxor (rotr 7 x) (rotr 18 x)) (Z.shiftr x 3).

Definition sigma1 (x : Z) : Z :=
  Z.lxor (Z.lxor (rotr 17 x) (rotr 19 x)) (Z.shiftr x 10).

(** The constants of FIPS 180-4 are taken from the first 64 primes: a
    round constant is the first 32 bits of the fractional part of the
    cube root of a prime, an initial register those of its square
    root.  Both are computed here on integers, as the root of the prime
    scaled by a power of two. *)
Definition primes : list Z :=
  [ 2; 3; 5; 7; 11; 13; 17; 19; 23; 29; 31; 37; 41; 43; 47; 53;
    59; 61; 67; 71; 73; 79; 83; 89; 97; 101; 103; 107; 109; 113; 127; 131;
    137; 139; 149; 151; 157; 163; 167; 173; 179; 181; 191; 193; 197; 199;
    211; 223; 227; 229; 233; 239; 241; 251; 257; 263; 269; 271; 277; 281;
    283; 293; 307; 311 ].

(** The integer cube root, one bit at a time from bit [n - 1] down. *)
Fixpoint cube_root_bits (n : nat) (x r : Z) : Z :=
  match n with
  | O => r
  | S n' =>
      let r' := r + 2 ^ Z.of_nat n' in
      cube_root_bits n' x (if r' * r' * r' <=? x then r' else r)
  end.

Definition cube_root_frac32 (p : Z) : Z :=
  wrap (cube_root_bits 36 (p * 2 ^ 96) 0).

Definition square_root_frac32 (p : Z) : Z :=
  wrap (Z.sqrt (p * 2 ^ 64)).

Definition K : list Z := Eval vm_compute in map cube_root_frac32 primes.

(** The eight working registers, also the chaining value. *)
Record regs : Type := Regs {
  ra : Z; rb : Z; rc : Z; rd : Z; re : Z; rf : Z; rg : Z; rh : Z
}.

Definition H0 : regs :=
  Eval vm_compute in
    let f := fun i => square_root_frac32 (nth i primes 0) in
    Regs (f 0%nat) (f 1%nat) (f 2%nat) (f 3%nat)
         (f 4%nat) (f 5%nat) (f 6%nat) (f 7%nat).

(** Message schedule.  The words are kept newest first, so that
    [W(t-2)], [W(t-7)], [W(t-15)] and [W(t-16)] sit at positions 1, 6,
    14 and 15. *)
Definition next_word (rev_w : list Z) : Z :=
  add32 (add32 (sigma1 (nth 1 rev_w 0)) (nth 6 rev_w 0))
        (add32 (sigma0 (nth 14 rev_w 0)) (nth 15 rev_w 0)).

Fixpoint extend (n : nat) (rev_w : list Z) : list Z :=
  match n with
  | O => rev_w
  | S n' => extend n' (next_word rev_w :: rev_w)
  end.

Definition schedule (block : list Z) : list Z :=
  rev (extend 48 (rev block)).

Definition round (r : regs) (kw : Z * Z) : regs :=
  let t1 := add32 (add32 (add32 (rh r) (Sigma1 (re r)))
                         (add32 (Ch (re r) (rf r) (rg r)) (fst kw)))
                  (snd kw) in
  let t2 := add32 (Sigma0 (ra r)) (Maj (ra r) (rb r) (rc r)) in
  Regs (add32 t1 t2) (ra r) (rb r) (rc r)
       (add32 (rd r) t1) (re r) (rf r) (rg r).

Definition compress (cv : regs) (block : list Z) : regs :=
  let r := fold_left round (combine K (schedule block)) cv in
  Regs (add32 (ra cv) (ra r)) (add32 (rb cv) (rb r))
       (add32 (rc cv) (rc r)) (add32 (rd cv) (rd r))
       (add32 (re cv) (re r)) (add32 (rf cv) (rf r))
       (add32 (rg cv) (rg r)) (add32 (rh cv) (rh r)).

(** Padding: a [0x80] byte, zeros up to 56 modulo 64, then the bit
    length as a 64-bit big-endian integer. *)
Fixpoint be_bytes (n : nat) (x : Z) : list Z :=
  match n with
  | O => []
  | S n' => Z.shiftr x (8 * Z.of_nat n') mod 256 :: be_bytes n' x
  end.

Definition pad (msg : list Z) : list Z :=
  let len := Z.of_nat (length msg) in
  msg ++ [0x80] ++ repeat 0 (Z.to_nat ((55 - len) mod 64))
      ++ be_bytes 8 (8 * len).

Fixpoint be_words (bs : list Z) : list Z :=
  match bs with
  | b0 :: b1 :: b2 :: b3 :: rest =>
      (Z.shiftl b0 24 + Z.shiftl b1 16 + Z.shiftl b2 8 + b3)
        :: be_words rest
  | _ => []
  end.

(** One word is absorbed at a time; a full buffer of sixteen words is
    one block. *)
Definition absorb (st : regs * list Z) (w : Z) : regs * list Z :=
  let buf := snd st ++ [w] in
  if (length buf =? 16)%nat then (compress (fst st) buf, [])
  else (fst st, buf).

Definition digest (content : list byte) : regs :=
  let msg := map (fun b => Z.of_N (Byte.to_N b)) content in
  fst (fold_left absorb (be_words (pad msg)) (H0, [])).

Definition hex_alphabet : list ascii :=
  list_ascii_of_string "0123456789abcdef".

Definition hex_digit (x : Z) : ascii :=
  nth (Z.to_nat (x mod 16)) hex_alphabet "0"%char.

Fixpoint hex_word (n : nat) (x : Z) : list ascii :=
  match n with
  | O => []
  | S n' => hex_digit (Z.shiftr x (4 * Z.of_nat n')) :: hex_word n' x
  end.

Definition hex_regs (r : regs) : list ascii :=
  hex_word 8 (ra r) ++ hex_word 8 (rb r) ++ hex_word 8 (rc r)
    ++ hex_word 8 (rd r) ++ hex_word 8 (re r) ++ hex_word 8 (rf r)
    ++ hex_word 8 (rg r) ++ hex_word 8 (rh r).

Definition hexdigest (content : list byte) : string :=
  string_of_list_ascii (hex_regs (digest content)).

(** A 32-bit word, and the eight words of a 256-bit digest. *)
Definition word32 (x : Z) : Prop := 0 ≤ x < 2 ^ 32.

Definition regs_list (r : regs) : list Z :=
  [ra r; rb r; rc r; rd r; re r; rf r; rg r; rh r].

End SHA256.

(** ** Python values and exceptions *)

(** The scalars that occur as values of chunk metadata and of cache
    records: [None], [bool], [int] and [str]. *)
Inductive pyval : Type :=
  | PNone
  | PBool (b : bool)
  | PInt (n : Z)
  | PStr (s : string).

#[global] Instance pyval_eq_dec : EqDecision pyval.
Proof. solve_decision. Defined.

(** A [dict] with string keys.  [d.get(k) == s] for a string [s] is
    [d !! k = Some (PStr s)]: a missing key gives [None], and [None] or a
    value of another type never equals a [str]. *)
Abbreviation Dict := (gmap string pyval).

(** The exceptions that the modelled calls raise. *)
Inductive exn : Type :=
  | FileNotFoundError (path : string)
  | JSONDecodeError
  | ValueError (msg : string)
  | KeyError (key : string)
  | TypeError.

Inductive outcome (A : Type) : Type :=
  | Ok (a : A)
  | Raised (e : exn).
Arguments Ok {A} a.
Arguments Raised {A} e.

(** [langchain.docstore.document.Document] *)
Record Document : Type := mkDocument {
  page_content : string;
  metadata : Dict
}.

(** ** The vector store ([langchain_chroma.Chroma])

    The model of the store keeps what the manager can observe: the
    entries with their ids and metadata, and a journal of the calls it
    received.  Embeddings are owned by the store and left out.

    - [get()] lists every entry, under the keys ['ids'] and
      ['metadatas'] (among others).
    - [delete(ids)] removes the entries with these ids.  Chroma validates
      the id list and rejects an empty one with [ValueError].
    - [add_documents(docs)] draws a fresh [uuid4] id per document and
      upserts; the upsert goes through the same validation, so that an
      empty batch is rejected with [ValueError].  Ids are modelled as
      numbers drawn from a counter. *)
Module Chroma.

Definition ID : Type := nat.

Record Entry : Type := mkEntry {
  entry_id : ID;
  entry_metadata : Dict;
  entry_document : string
}.

Inductive Call : Type :=
  | CallGet
  | CallDelete (ids : list ID)
  | CallAdd (docs : list Document).

Record Collection : Type := mkCollection {
  entries : list Entry;
  uuid_counter : nat;
  calls : list Call
}.

(** The [dict] returned by [get()], restricted to the two keys the
    manager reads; [None] in a field is an absent key. *)
Record GetResult : Type := mkGetResult {
  gr_ids : option (list ID);
  gr_metadatas : option (list Dict)
}.

Definition logged (c : Collection) (k : Call) : Collection :=
  mkCollection (entries c) (uuid_counter c) (calls c ++ [k]).

Definition get (c : Collection) : option GetResult * Collection :=
  (Some (mkGetResult (Some (entry_id <$> entries c))
                     (Some (entry_metadata <$> entries c))),
   logged c CallGet).

Definition delete (ids : list ID) (c : Collection)
  : outcome unit * Collection :=
  let c := logged c (CallDelete ids) in
  match ids with
  | [] => (Raised (ValueError "Expected IDs to be a non-empty list"), c)
  | _ :: _ =>
      (Ok tt,
       mkCollection (filter (fun e => entry_id e ∉ ids) (entries c))
                    (uuid_counter c) (calls c))
  end.

Definition new_entry (id : ID) (doc : Document) : Entry :=
  mkEntry id (metadata doc) (page_content doc).

Definition add_documents (docs : list Document) (c : Collection)
  : outcome (list ID) * Collection :=
  let c := logged c (CallAdd docs) in
  match docs with
  | [] => (Raised (ValueError "Expected IDs to be a non-empty list"), c)
  | _ :: _ =>
      let ids := seq (uuid_counter c) (length docs) in
      (Ok ids,
       mkCollection (entries c ++ zip_with new_entry ids docs)
                    (uuid_counter c + length docs) (calls c))
  end.

End Chroma.

(** ** The state the manager works on *)

(** What [json.load] makes of the text of the cache file: the mapping
    that [json.dump] wrote, or nothing when the text is not JSON. *)
Inductive CacheText : Type :=
  | JsonOf (m : gmap string Dict)
  | Malformed (raw : string).

Record World : Type := mkWorld {
  (** the files on disk that [open(file_path, 'rb')] can read *)
  files : gmap string (list byte);
  (** the content of [processed_files.json], [None] when it does not
      exist *)
  cache_file : option CacheText;
  (** [self.processed_files] *)
  processed_files : gmap string Dict;
  (** [self.vector_db] *)
  vector_db : Chroma.Collection;
  (** what [datetime.datetime.now().isoformat()] returns *)
  now_isoformat : string
}.

Definition with_cache_file (t : option CacheText) (w : World) : World :=
  mkWorld (files w) t (processed_files w) (vector_db w) (now_isoformat w).

Definition with_processed_files (m : gmap string Dict) (w : World) : World :=
  mkWorld (files w) (cache_file w) m (vector_db w) (now_isoformat w).

Definition with_vector_db (c : Chroma.Collection) (w : World) : World :=
  mkWorld (files w) (cache_file w) (processed_files w) c (now_isoformat w).

(** ** Computations that change the state and may raise

    An exception leaves the state as it was when it was raised: nothing
    is rolled back. *)
Definition M (A : Type) : Type := World -> outcome A * World.

#[global] Instance M_ret : MRet M := fun A a w => (Ok a, w).

#[global] Instance M_bind : MBind M := fun A B k m w =>
  match m w with
  | (Ok a, w') => k a w'
  | (Raised e, w') => (Raised e, w')
  end.

Definition raise {A : Type} (e : exn) : M A := fun w => (Raised e, w).

Definition gets {A : Type} (f : World -> A) : M A := fun w => (Ok (f w), w).

Definition modify (f : World -> World) : M unit := fun w => (Ok tt, f w).

(** [try: body except Exception as e: logging.error(...); raise].
    Logging has no effect on the state. *)
Definition try_reraise {A : Type} (body : M A) : M A := fun w =>
  match body w with
  | (Ok a, w') => (Ok a, w')
  | (Raised e, w') => (Raised e, w')
  end.

(** Calls on [self.vector_db]. *)
Definition vector_db_get : M (option Chroma.GetResult) := fun w =>
  let (r, c) := Chroma.get (vector_db w) in (Ok r, with_vector_db c w).

Definition vector_db_delete (ids : list Chroma.ID) : M unit := fun w =>
  let (r, c) := Chroma.delete ids (vector_db w) in (r, with_vector_db c w).

Definition vector_db_add_documents (docs : list Document)
  : M (list Chroma.ID) := fun w =>
  let (r, c) := Chroma.add_documents docs (vector_db w) in
  (r, with_vector_db c w).

(** [with open(file_path, 'rb') as f: f.read()] *)
Definition read_bytes (file_path : string) : M (list byte) := fun w =>
  match files w !! file_path with
  | Some content => (Ok content, w)
  | None => (Raised (FileNotFoundError file_path), w)
  end.

(** ** VectorStoreManager *)

Definition _save_cache : M unit :=
  modify (fun w => with_cache_file (Some (JsonOf (processed_files w))) w).

Definition _load_cache : M unit :=
  text ← gets cache_file;
  match text with
  | Some (JsonOf m) => modify (with_processed_files m)
  | Some (Malformed _) => raise JSONDecodeError
  | None => modify (with_processed_files ∅);; _save_cache
  end.

Definition _get_file_hash (file_path : string) : M string :=
  content ← read_bytes file_path;
  mret (SHA256.hexdigest content).

(** The body of [_remove_existing_documents] after
    [result = self.vector_db.get()]. *)
Definition remove_listed (result : option Chroma.GetResult)
    (file_path : string) : M unit :=
  match result with
  | Some (Chroma.mkGetResult (Some ids) (Some metadatas)) =>
      let ids_to_delete :=
        (filter (fun im : Chroma.ID * Dict =>
                   im.2 !! "source_file" = Some (PStr file_path))
                (zip ids metadatas)).*1 in
      match ids_to_delete with
      | _ :: _ => vector_db_delete ids_to_delete
      | [] => mret tt
      end
  | _ => mret tt
  end.

Definition _remove_existing_documents (file_path : string) : M unit :=
  try_reraise (
    result ← vector_db_get;
    remove_listed result file_path).

Definition stamp (current_hash file_path : string) (doc : Document)
  : Document :=
  mkDocument (page_content doc)
    (<["source_file" := PStr file_path]>
       (<["file_hash" := PStr current_hash]> (metadata doc))).

Definition cache_record (current_hash : string) (num_chunks : nat)
    (last_processed : string) : Dict :=
  <["last_processed" := PStr last_processed]>
    (<["num_chunks" := PInt (Z.of_nat num_chunks)]>
       (<["hash" := PStr current_hash]> ∅)).

Definition process_document (file_path : string) (docs : list Document)
  : M bool :=
  try_reraise (
    current_hash ← _get_file_hash file_path;
    file_info ← gets (fun w => default ∅ (processed_files w !! file_path));
    if decide (file_info !! "hash" = Some (PStr current_hash)) then
      mret false
    else
      _remove_existing_documents file_path;;
      let docs := stamp current_hash file_path <$> docs in
      vector_db_add_documents docs;;
      now ← gets now_isoformat;
      modify (fun w =>
        with_processed_files
          (<[file_path := cache_record current_hash (length docs) now]>
             (processed_files w)) w);;
      _save_cache;;
      mret true).

Definition get_vector_store : M Chroma.Collection := gets vector_db.

Definition get_file_info (file_path : string) : M Dict :=
  gets (fun w => default ∅ (processed_files w !! file_path)).

(** [self.vector_db.get()['ids']] *)
Definition subscript_ids (result : option Chroma.GetResult)
  : M (list Chroma.ID) :=
  match result with
  | None => raise TypeError
  | Some r =>
      match Chroma.gr_ids r with
      | Some ids => mret ids
      | None => raise (KeyError "ids")
      end
  end.

Definition clear_all : M unit :=
  try_reraise (
    result ← vector_db_get;
    ids ← subscript_ids result;
    vector_db_delete ids;;
    modify (with_processed_files ∅);;
    _save_cache).

(** ** What the removal step does to the store *)

Definition from_file (file_path : string) (e : Chroma.Entry) : Prop :=
  Chroma.entry_metadata e !! "source_file" = Some (PStr file_path).

#[global] Instance from_file_dec file_path e : Decision (from_file file_path e).
Proof. unfold from_file. apply _. Defined.

Definition ids_from_file (file_path : string) (c : Chroma.Collection)
  : list Chroma.ID :=
  Chroma.entry_id <$> filter (from_file file_path) (Chroma.entries c).

(** The collection after [_remove_existing_documents file_path]. *)
Definition purged (file_path : string) (c : Chroma.Collection)
  : Chroma.Collection :=
  match ids_from_file file_path c with
  | [] => Chroma.logged c Chroma.CallGet
  | ids =>
      Chroma.mkCollection
        (filter (fun e => Chroma.entry_id e ∉ ids) (Chroma.entries c))
        (Chroma.uuid_counter c)
        (Chroma.calls c ++ [Chroma.CallGet; Chroma.CallDelete ids])
  end.

(** The state after the replace path of [process_document] has run to
    its end, for a file whose hash is [current_hash]. *)
Definition replaced (file_path current_hash : string) (docs : list Document)
    (w : World) : World :=
  let c := purged file_path (vector_db w) in
  let stamped := stamp current_hash file_path <$> docs in
  let ids := seq (Chroma.uuid_counter c) (length stamped) in
  let cache :=
    <[file_path := cache_record current_hash (length stamped)
                     (now_isoformat w)]> (processed_files w) in
  mkWorld (files w) (Some (JsonOf cache)) cache
    (Chroma.mkCollection
       (Chroma.entries c ++ zip_with Chroma.new_entry ids stamped)
       (Chroma.uuid_counter c + length stamped)
       (Chroma.calls c ++ [Chroma.CallAdd stamped]))
    (now_isoformat w).

(** [file_info.get('hash') == current_hash] for the cache of [w]. *)
Definition cached (file_path current_hash : string) (w : World) : Prop :=
  default ∅ (processed_files w !! file_path) !! "hash"
  = Some (PStr current_hash).

#[global] Instance cached_dec file_path current_hash w :
  Decision (cached file_path current_hash w).
Proof. unfold cached. apply _. Defined.

(** The entries of the store that belong to a file. *)
Definition entries_of (file_path : string) (w : World) : list Chroma.Entry :=
  filter (from_file file_path) (Chroma.entries (vector_db w)).



Definition bytes_of_string (s : string) : list byte :=
  map byte_of_ascii (list_ascii_of_string s).

(** ** Sample states

    A store directory that was just created, one document on disk, and
    the chunks the splitter made of it. *)
Module Sample.

Definition fresh_store : Chroma.Collection := Chroma.mkCollection [] 0 [].

Definition chunk (text : string) (page : Z) : Document :=
  mkDocument text {[ "page" := PInt page ]}.

Definition chunks : list Document :=
  [ chunk "Retrieval augmented" 0; chunk "generation" 1 ].

(** Before the manager is constructed: no cache file yet. *)
Definition initial : World :=
  mkWorld {[ "doc.pdf" := bytes_of_string "%PDF-1.4 first" ]}
          None ∅ fresh_store "2024-05-01T10:00:00".

(** After [__init__] has loaded the cache. *)
Definition loaded : World := (_load_cache initial).2.

(** After ["doc.pdf"] has been processed once. *)
Definition ingested : World := (process_document "doc.pdf" chunks loaded).2.

(** The file is rewritten and the clock moves on. *)
Definition edited : World :=
  mkWorld {[ "doc.pdf" := bytes_of_string "%PDF-1.4 second" ]}
          (cache_file ingested) (processed_files ingested)
          (vector_db ingested) "2024-05-02T09:30:00".

(** After [clear_all] on the ingested state. *)
Definition cleared : World := (clear_all ingested).2.

(** A cache file that is not JSON. *)
Definition corrupted : World :=
  mkWorld (files initial) (Some (Malformed "{'doc.pdf': "))
          ∅ fresh_store (now_isoformat initial).

End Sample.

(** ** Agreement of the store with the cache

    Every entry that names a file as its ['source_file'] carries, as
    ['file_hash'], the hash the cache holds for that file. *)
Definition coherent (w : World) : Prop :=
  ∀ (e : Chroma.Entry) (file_path : string),
    e ∈ Chroma.entries (vector_db w) → from_file file_path e →
    ∃ h, Chroma.entry_metadata e !! "file_hash" = Some (PStr h)
      ∧ cached file_path h w.

(** A new manager over the same directory.  Of [__init__], loading the
    embedding model and opening the persisted store leave the modelled
    state as it is; what remains is the call of [_load_cache] on an
    object whose [processed_files] is not set yet, here an arbitrary
    [stale] value that is overwritten or, when loading raises, never
    read. *)
Definition __init__ (stale : gmap string Dict) : M unit :=
  modify (with_processed_files stale);; _load_cache.

(** ** src/pdf_processing.py *)

Module PDF.

(** [PDFProcessingError], and any other exception with the text that
    [str(e)] gives. *)
Inductive exception : Type :=
  | PDFProcessingError (msg : string)
  | Exception (text : string).

Definition str (e : exception) : string :=
  match e with
  | PDFProcessingError msg => msg
  | Exception text => text
  end.

Inductive result (A : Type) : Type :=
  | Returns (a : A)
  | Raises (e : exception).
Arguments Returns {A} a.
Arguments Raises {A} e.

Definition bind {A B : Type} (r : result A) (k : A → result B) : result B :=
  match r with
  | Returns a => k a
  | Raises e => Raises e
  end.

(** [os.path.basename] on POSIX paths: what follows the last ['/']. *)
Fixpoint after_last_slash (p acc : list ascii) : list ascii :=
  match p with
  | [] => acc
  | c :: rest =>
      if decide (c = "/"%char) then after_last_slash rest []
      else after_last_slash rest (acc ++ [c])
  end.

Definition basename (p : string) : string :=
  string_of_list_ascii (after_last_slash (list_ascii_of_string p) []).

(** The defaults of [load_and_process_pdf]. *)
Definition default_chunk_size : Z := 1500.
Definition default_chunk_overlap : Z := 150.

Section Collaborators.

(** The libraries the module calls, each reading the files on disk:
    [magic.Magic(mime=True).from_file], [PyPDFLoader(path).load()] and
    [RecursiveCharacterTextSplitter(...).split_documents]. *)
Variable magic_from_file : gmap string (list byte) → string → string.
Variable PyPDFLoader_load :
  gmap string (list byte) → string → result (list Document).
Variable split_documents : Z → Z → list Document → result (list Document).

Definition validate_pdf (pdf_path : string) (fs : gmap string (list byte))
  : result unit :=
  if decide (fs !! pdf_path = None) then
    Raises (PDFProcessingError ("File not found: " ++ pdf_path))
  else
    let file_type := magic_from_file fs pdf_path in
    if decide (file_type ≠ "application/pdf") then
      Raises (PDFProcessingError
                ("Invalid file type: " ++ file_type ++ ". Expected PDF file."))
    else Returns tt.

(** [doc.metadata['source_file'] = os.path.basename(pdf_path)] *)
Definition set_source_file (pdf_path : string) (doc : Document) : Document :=
  mkDocument (page_content doc)
    (<["source_file" := PStr (basename pdf_path)]> (metadata doc)).

(** The body of the [try] block. *)
Definition load_and_process_pdf_body (pdf_path : string)
    (chunk_size chunk_overlap : Z) (fs : gmap string (list byte))
  : result (list Document) :=
  bind (validate_pdf pdf_path fs) (fun _ =>
  bind (PyPDFLoader_load fs pdf_path) (fun documents =>
  match documents with
  | [] => Raises (PDFProcessingError
                    ("No content found in PDF: " ++ pdf_path))
  | _ :: _ =>
      bind (split_documents chunk_size chunk_overlap documents) (fun docs =>
      match docs with
      | [] => Raises (PDFProcessingError
                        "Failed to create text chunks from PDF")
      | _ :: _ => Returns (set_source_file pdf_path <$> docs)
      end)
  end)).

Definition load_and_process_pdf (pdf_path : string)
    (chunk_size chunk_overlap : Z) (fs : gmap string (list byte))
  : result (list Document) :=
  match load_and_process_pdf_body pdf_path chunk_size chunk_overlap fs with
  | Returns docs => Returns docs
  | Raises e =>
      Raises (PDFProcessingError
                ("Failed to process PDF " ++ pdf_path ++ ": " ++ str e))
  end.

End Collaborators.

(** Stand-ins for the libraries, for running the module on the sample
    states: a file is a PDF when it opens with ["%PDF"], it loads as one
    page, and the splitter cuts nothing. *)
Definition sample_magic (fs : gmap string (list byte)) (path : string)
  : string :=
  match fs !! path with
  | Some ("%"%byte :: "P"%byte :: "D"%byte :: "F"%byte :: _) =>
      "application/pdf"
  | _ => "text/plain"
  end.

Definition sample_loader (fs : gmap string (list byte)) (path : string)
  : result (list Document) :=
  match fs !! path with
  | Some (_ :: _) =>
      Returns [mkDocument "page text"
                 (<["source" := PStr path]> {[ "page" := PInt 0 ]})]
  | Some [] => Returns []
  | None => Raises (Exception "File path is not a valid file or url")
  end.

Definition sample_splitter (chunk_size chunk_overlap : Z)
    (documents : list Document) : result (list Document) :=
  if chunk_size <? chunk_overlap then
    Raises (Exception "Got a larger chunk overlap than chunk size")
  else Returns documents.

Definition sample_fs : gmap string (list byte) :=
  <["docs/notes.txt" := bytes_of_string "plain text"]>
    (<["docs/temp/doc.pdf" := bytes_of_string "%PDF-1.4 first"]> ∅).

End PDF.

(** ** The digest is 256 bits, written as 64 hexadecimal digits *)

Module SHA256Facts.
Import SHA256.

Example digest_of_empty :
  hexdigest []
  = "e3b0c44298fc1c149afbf4c8996fb92427ae41e4649b934ca495991b7852b855".
Proof. vm_compute. reflexivity. Qed.

Example digest_of_abc :
  hexdigest (bytes_of_string "abc")
  = "ba7816bf8f01cfea414140de5dae2223b00361a396177a9cb410ff61f20015ad".
Proof. vm_compute. reflexivity. Qed.

(** 64 bytes of message: the padding opens a second block. *)
Example digest_of_two_blocks :
  hexdigest (repeat "a"%byte 64)
  = "ffe054fe7ae0cb6dc65c3af9b61d5209f439851db43d0ba5997337df154668eb".
Proof. vm_compute. reflexivity. Qed.

Example first_round_constant : nth 0 K 0 = 0x428a2f98.
Proof. reflexivity. Qed.

Example last_round_constant : nth 63 K 0 = 0xc67178f2.
Proof. reflexivity. Qed.

Example first_initial_register : ra H0 = 0x6a09e667.
Proof. reflexivity. Qed.

Lemma add32_word32 (x y : Z) : word32 (add32 x y).
Proof. unfold word32, add32, wrap. apply Z.mod_pos_bound. lia. Qed.

Lemma compress_word32 (cv : regs) (block : list Z) :
  Forall word32 (regs_list (compress cv block)).
Proof.
  unfold compress, regs_list. cbn [ra rb rc rd re rf rg rh].
  repeat (constructor; [apply add32_word32|]). constructor.
Qed.

Lemma H0_word32 : Forall word32 (regs_list H0).
Proof.
  unfold regs_list, H0, word32. cbn [ra rb rc rd re rf rg rh].
  repeat (constructor; [lia|]). constructor.
Qed.

Lemma absorb_word32 (st : regs * list Z) (x : Z) :
  Forall word32 (regs_list st.1) → Forall word32 (regs_list (absorb st x).1).
Proof.
  intros Hst. unfold absorb.
  destruct (length (st.2 ++ [x]) =? 16)%nat; cbn [fst];
    [apply compress_word32|done].
Qed.

Lemma absorb_all_word32 (ws : list Z) (st : regs * list Z) :
  Forall word32 (regs_list st.1) →
  Forall word32 (regs_list (fold_left absorb ws st).1).
Proof.
  revert st. induction ws as [|x ws IH]; intros st Hst; [done|].
  cbn [fold_left]. apply IH. by apply absorb_word32.
Qed.

Lemma digest_word32 (content : list byte) :
  Forall word32 (regs_list (digest content)).
Proof. unfold digest. apply absorb_all_word32. apply H0_word32. Qed.

Lemma hex_digit_in_alphabet (x : Z) : hex_digit x ∈ hex_alphabet.
Proof.
  unfold hex_digit.
  assert (Z.to_nat (x mod 16) < 16)%nat as Hn
    by (pose proof (Z.mod_pos_bound x 16); lia).
  generalize dependent (Z.to_nat (x mod 16)). intros n Hn.
  do 16 (destruct n as [|n];
         [apply (bool_decide_unpack _); vm_compute; exact I|]).
  lia.
Qed.

Lemma hex_word_in_alphabet (n : nat) (x : Z) :
  Forall (fun c => c ∈ hex_alphabet) (hex_word n x).
Proof.
  induction n as [|n IH]; cbn [hex_word]; constructor;
    [apply hex_digit_in_alphabet|done].
Qed.

Lemma length_hex_word (n : nat) (x : Z) : length (hex_word n x) = n.
Proof. induction n as [|n IH]; cbn [hex_word length]; congruence. Qed.

Lemma length_hex_regs (r : regs) : length (hex_regs r) = 64%nat.
Proof. unfold hex_regs. by rewrite !length_app, !length_hex_word. Qed.

Lemma hex_regs_in_alphabet (r : regs) :
  Forall (fun c => c ∈ hex_alphabet) (hex_regs r).
Proof.
  unfold hex_regs. repeat (apply Forall_app; split);
    apply hex_word_in_alphabet.
Qed.

Lemma length_string_of_list_ascii (l : list ascii) :
  String.length (string_of_list_ascii l) = length l.
Proof. induction l as [|c l IH]; cbn; congruence. Qed.

Lemma length_hexdigest (content : list byte) :
  String.length (hexdigest content) = 64%nat.
Proof.
  unfold hexdigest.
  by rewrite length_string_of_list_ascii, length_hex_regs.
Qed.

Lemma hexdigest_in_alphabet (content : list byte) :
  Forall (fun c => c ∈ hex_alphabet)
         (list_ascii_of_string (hexdigest content)).
Proof.
  unfold hexdigest. rewrite list_ascii_of_string_of_list_ascii.
  apply hex_regs_in_alphabet.
Qed.

End SHA256Facts.

(** ** Running computations step by step *)

Section Run.

Context {A B : Type}.
Implicit Types (m : M A) (k : A → M B) (w : World).

Lemma run_bind_ok m k w a w' :
  m w = (Ok a, w') → (m ≫= k) w = k a w'.
Proof. unfold mbind, M_bind. by intros ->. Qed.

Lemma run_bind_raised m k w e w' :
  m w = (Raised e, w') → (m ≫= k) w = (Raised e, w').
Proof. unfold mbind, M_bind. by intros ->. Qed.

Lemma run_try_reraise m w : try_reraise m w = m w.
Proof. unfold try_reraise. by destruct (m w) as [[a|e] w']. Qed.

Lemma run_gets (f : World → A) w : gets f w = (Ok (f w), w).
Proof. reflexivity. Qed.

Lemma run_ret (a : A) w : mret (M := M) a w = (Ok a, w).
Proof. reflexivity. Qed.

End Run.

Lemma run_modify (f : World → World) (w : World) :
  modify f w = (Ok tt, f w).
Proof. reflexivity. Qed.

(** [run_step H] runs the first computation of a sequence, [H] saying
    what it does. *)
Ltac run_step H :=
  first [ erewrite run_bind_ok by exact H
        | erewrite run_bind_raised by exact H ].

(** ** Filtering lists *)

Section Filter.

Context {A : Type} (P : A → Prop) `{!∀ x, Decision (P x)}.

Lemma filter_all (l : list A) : (∀ x, x ∈ l → P x) → filter P l = l.
Proof.
  induction l as [|a l IH]; intros Hl; [done|].
  rewrite filter_cons_True by (apply Hl; left).
  f_equal. apply IH. intros x Hx. apply Hl. by right.
Qed.

Lemma filter_none (l : list A) : (∀ x, x ∈ l → ¬ P x) → filter P l = [].
Proof.
  intros Hl. apply elem_of_nil_inv.
  intros x [HP Hx]%list_elem_of_filter. by apply (Hl x).
Qed.

End Filter.

Section Removal.

Implicit Types (c : Chroma.Collection) (e : Chroma.Entry).

Lemma listed_ids_to_delete (file_path : string) (es : list Chroma.Entry) :
  (filter (fun im : Chroma.ID * Dict =>
             im.2 !! "source_file" = Some (PStr file_path))
          (zip (Chroma.entry_id <$> es) (Chroma.entry_metadata <$> es))).*1
  = Chroma.entry_id <$> filter (from_file file_path) es.
Proof.
  induction es as [|e es IH]; [done|].
  cbn [fmap list_fmap zip_with].
  rewrite !filter_cons. cbn [snd]. unfold from_file at 1.
  destruct (decide (Chroma.entry_metadata e !! "source_file"
                    = Some (PStr file_path))); cbn; by rewrite IH.
Qed.

Lemma get_run (w : World) :
  vector_db_get w
  = (Ok (Some (Chroma.mkGetResult
       (Some (Chroma.entry_id <$> Chroma.entries (vector_db w)))
       (Some (Chroma.entry_metadata <$> Chroma.entries (vector_db w))))),
     with_vector_db (Chroma.logged (vector_db w) Chroma.CallGet) w).
Proof. reflexivity. Qed.

Lemma remove_existing_run (file_path : string) (w : World) :
  _remove_existing_documents file_path w
  = (Ok tt, with_vector_db (purged file_path (vector_db w)) w).
Proof.
  unfold _remove_existing_documents.
  rewrite run_try_reraise. run_step (get_run w).
  unfold remove_listed. rewrite listed_ids_to_delete.
  unfold purged, ids_from_file.
  destruct (Chroma.entry_id <$> filter (from_file file_path)
              (Chroma.entries (vector_db w))) as [|i ids] eqn:E.
  - done.
  - unfold vector_db_delete, Chroma.delete. cbn.
    unfold with_vector_db. cbn. by rewrite <- app_assoc.
Qed.

Lemma purged_none_left (file_path : string) c e :
  e ∈ Chroma.entries (purged file_path c) → ¬ from_file file_path e.
Proof.
  unfold purged, ids_from_file.
  destruct (Chroma.entry_id <$> filter (from_file file_path)
              (Chroma.entries c)) as [|i ids] eqn:E.
  - cbn. intros He Hf.
    apply fmap_nil_inv in E.
    assert (e ∈ filter (from_file file_path) (Chroma.entries c)) as Hin
      by (apply list_elem_of_filter; done).
    rewrite E in Hin. by apply not_elem_of_nil in Hin.
  - cbn. rewrite <- E. intros [Hid He]%list_elem_of_filter Hf.
    apply Hid. apply list_elem_of_fmap. exists e. split; [done|].
    by apply list_elem_of_filter.
Qed.

Lemma purged_keeps_others (file_path : string) c e :
  (∀ e1 e2, e1 ∈ Chroma.entries c → e2 ∈ Chroma.entries c →
            Chroma.entry_id e1 = Chroma.entry_id e2 →
            from_file file_path e1 → from_file file_path e2) →
  e ∈ Chroma.entries c → ¬ from_file file_path e →
  e ∈ Chroma.entries (purged file_path c).
Proof.
  intros Hid He Hf. unfold purged, ids_from_file.
  destruct (Chroma.entry_id <$> filter (from_file file_path)
              (Chroma.entries c)) as [|i ids] eqn:E; [done|].
  cbn. rewrite <- E. apply list_elem_of_filter. split; [|done].
  intros (e' & Heq & [Hf' He']%list_elem_of_filter)%list_elem_of_fmap.
  apply Hf. by apply (Hid e' e).
Qed.

End Removal.

Section Process.

Variables (file_path : string) (docs : list Document) (w : World).

Lemma process_document_missing :
  files w !! file_path = None →
  process_document file_path docs w
  = (Raised (FileNotFoundError file_path), w).
Proof.
  intros Hf.
  assert (read_bytes file_path w = (Raised (FileNotFoundError file_path), w))
    as Hr by (unfold read_bytes; by rewrite Hf).
  assert (_get_file_hash file_path w
          = (Raised (FileNotFoundError file_path), w)) as Hh
    by (unfold _get_file_hash; by run_step Hr).
  unfold process_document. rewrite run_try_reraise. by run_step Hh.
Qed.

Variable content : list byte.
Hypothesis readable : files w !! file_path = Some content.

Local Abbreviation h := (SHA256.hexdigest content).

Lemma get_file_hash_run : _get_file_hash file_path w = (Ok h, w).
Proof.
  assert (read_bytes file_path w = (Ok content, w)) as Hr
    by (unfold read_bytes; by rewrite readable).
  unfold _get_file_hash. by run_step Hr.
Qed.

Lemma process_document_skip :
  cached file_path h w → process_document file_path docs w = (Ok false, w).
Proof.
  intros Hc. unfold process_document.
  rewrite run_try_reraise. run_step get_file_hash_run.
  run_step (run_gets (fun w => default ∅ (processed_files w !! file_path)) w).
  unfold cached in Hc. by rewrite decide_True.
Qed.

Lemma process_document_replace :
  ¬ cached file_path h w → docs ≠ [] →
  process_document file_path docs w
  = (Ok true, replaced file_path h docs w).
Proof.
  intros Hc Hd. unfold process_document.
  rewrite run_try_reraise. run_step get_file_hash_run.
  run_step (run_gets (fun w => default ∅ (processed_files w !! file_path)) w).
  unfold cached in Hc. rewrite decide_False by done.
  run_step (remove_existing_run file_path w).
  destruct docs as [|d ds]; [done|]. reflexivity.
Qed.

Lemma process_document_empty :
  ¬ cached file_path h w → docs = [] →
  process_document file_path docs w
  = (Raised (ValueError "Expected IDs to be a non-empty list"),
     with_vector_db
       (Chroma.logged (purged file_path (vector_db w)) (Chroma.CallAdd []))
       w).
Proof.
  intros Hc ->. unfold process_document.
  rewrite run_try_reraise. run_step get_file_hash_run.
  run_step (run_gets (fun w => default ∅ (processed_files w !! file_path)) w).
  unfold cached in Hc. rewrite decide_False by done.
  run_step (remove_existing_run file_path w).
  reflexivity.
Qed.

End Process.

(** ** The state after a replace *)

Section Replaced.

Variables (file_path h : string) (docs : list Document) (w : World).

Lemma stamp_file_hash (d : Document) :
  metadata (stamp h file_path d) !! "file_hash" = Some (PStr h).
Proof.
  unfold stamp. cbn [metadata].
  rewrite lookup_insert_ne by done. apply lookup_insert_eq.
Qed.

Lemma stamp_source_file (d : Document) :
  metadata (stamp h file_path d) !! "source_file" = Some (PStr file_path).
Proof. unfold stamp. cbn [metadata]. apply lookup_insert_eq. Qed.

Lemma new_entries_stamped (ids : list Chroma.ID) (e : Chroma.Entry) :
  e ∈ zip_with Chroma.new_entry ids (stamp h file_path <$> docs) →
  from_file file_path e
  ∧ Chroma.entry_metadata e !! "file_hash" = Some (PStr h).
Proof.
  intros (id & d & -> & _ & Hd)%elem_of_zip_with.
  apply list_elem_of_fmap in Hd as (d0 & -> & _).
  unfold from_file. cbn [Chroma.new_entry Chroma.entry_metadata].
  by rewrite stamp_file_hash, stamp_source_file.
Qed.


Lemma replaced_entries_of :
  entries_of file_path (replaced file_path h docs w)
  = zip_with Chroma.new_entry
      (seq (Chroma.uuid_counter (purged file_path (vector_db w)))
           (length docs))
      (stamp h file_path <$> docs).
Proof.
  unfold entries_of, replaced. cbn [vector_db Chroma.entries].
  rewrite filter_app, length_fmap.
  assert (filter (from_file file_path)
            (Chroma.entries (purged file_path (vector_db w))) = []) as ->.
  { apply filter_none. intros e He. by apply purged_none_left in He. }
  cbn [app]. apply filter_all.
  intros e He. by apply new_entries_stamped in He as [? _].
Qed.

Lemma replaced_count :
  length (entries_of file_path (replaced file_path h docs w)) = length docs.
Proof.
  rewrite replaced_entries_of, length_zip_with, length_seq, length_fmap. lia.
Qed.

Lemma replaced_cache :
  processed_files (replaced file_path h docs w) !! file_path
  = Some (cache_record h (length docs) (now_isoformat w)).
Proof.
  unfold replaced. cbn [processed_files].
  by rewrite lookup_insert_eq, length_fmap.
Qed.

Lemma replaced_persisted :
  cache_file (replaced file_path h docs w)
  = Some (JsonOf (processed_files (replaced file_path h docs w))).
Proof. reflexivity. Qed.

Lemma replaced_cached : cached file_path h (replaced file_path h docs w).
Proof. unfold cached. by rewrite replaced_cache. Qed.

End Replaced.

(** The three ways [process_document] can end for a readable file. *)
Lemma process_document_cases (file_path : string) (docs : list Document)
    (w : World) (content : list byte) :
  files w !! file_path = Some content →
  let h := SHA256.hexdigest content in
  (cached file_path h w
   ∧ process_document file_path docs w = (Ok false, w))
  ∨ (¬ cached file_path h w ∧ docs ≠ []
     ∧ process_document file_path docs w
       = (Ok true, replaced file_path h docs w))
  ∨ (¬ cached file_path h w ∧ docs = []
     ∧ process_document file_path docs w
       = (Raised (ValueError "Expected IDs to be a non-empty list"),
          with_vector_db
            (Chroma.logged (purged file_path (vector_db w))
                           (Chroma.CallAdd [])) w)).
Proof.
  intros Hf h.
  destruct (decide (cached file_path h w)) as [Hc|Hc].
  - left. split; [done|]. by apply (process_document_skip _ _ _ content).
  - right. destruct (decide (docs = [])) as [Hd|Hd].
    + right. repeat split; [done..|].
      by apply (process_document_empty _ _ _ content).
    + left. repeat split; [done..|].
      by apply (process_document_replace _ _ _ content).
Qed.

Lemma process_document_true_inv (file_path : string) (docs : list Document)
    (w w' : World) :
  process_document file_path docs w = (Ok true, w') →
  ∃ content, files w !! file_path = Some content
    ∧ ¬ cached file_path (SHA256.hexdigest content) w
    ∧ docs ≠ []
    ∧ w' = replaced file_path (SHA256.hexdigest content) docs w.
Proof.
  intros Hrun.
  destruct (files w !! file_path) as [content|] eqn:Hf.
  - exists content. split; [done|].
    destruct (process_document_cases file_path docs w content Hf)
      as [[_ Hp]|[(Hc & Hd & Hp)|(_ & _ & Hp)]];
      rewrite Hp in Hrun; [done| |done].
    by injection Hrun as <-.
  - rewrite process_document_missing in Hrun by done. done.
Qed.

(** ** Clearing *)

Section Clear.

Variable w : World.

Local Abbreviation c := (vector_db w).
Local Abbreviation ids := (Chroma.entry_id <$> Chroma.entries c).

Lemma clear_all_nonempty :
  Chroma.entries c ≠ [] →
  clear_all w
  = (Ok tt,
     mkWorld (files w) (Some (JsonOf ∅)) ∅
       (Chroma.mkCollection [] (Chroma.uuid_counter c)
          (Chroma.calls c ++ [Chroma.CallGet; Chroma.CallDelete ids]))
       (now_isoformat w)).
Proof.
  intros Hne. unfold clear_all.
  rewrite run_try_reraise. run_step (get_run w).
  unfold subscript_ids. cbn [Chroma.gr_ids].
  run_step (run_ret ids
              (with_vector_db (Chroma.logged c Chroma.CallGet) w)).
  unfold vector_db_delete, Chroma.delete.
  assert (filter (fun e => Chroma.entry_id e ∉ ids) (Chroma.entries c) = [])
    as Hgone.
  { apply filter_none. intros e He Hid. apply Hid.
    apply list_elem_of_fmap. by exists e. }
  destruct (Chroma.entries (vector_db w)) as [|e es] eqn:E; [done|].
  cbn [fmap list_fmap] in *.
  unfold mbind, M_bind. cbn [vector_db with_vector_db Chroma.logged
    Chroma.entries Chroma.uuid_counter Chroma.calls].
  rewrite E. cbn [fmap list_fmap]. rewrite Hgone.
  unfold modify, _save_cache, modify, with_processed_files,
    with_cache_file, with_vector_db.
  cbn. by rewrite <- app_assoc.
Qed.

Lemma clear_all_empty :
  Chroma.entries c = [] →
  clear_all w
  = (Raised (ValueError "Expected IDs to be a non-empty list"),
     with_vector_db
       (Chroma.mkCollection [] (Chroma.uuid_counter c)
          (Chroma.calls c ++ [Chroma.CallGet; Chroma.CallDelete []]))
       w).
Proof.
  intros He. unfold clear_all.
  rewrite run_try_reraise. run_step (get_run w).
  unfold subscript_ids. cbn [Chroma.gr_ids].
  run_step (run_ret ids
              (with_vector_db (Chroma.logged c Chroma.CallGet) w)).
  rewrite He. cbn [fmap list_fmap].
  unfold mbind, M_bind, vector_db_delete, Chroma.delete, with_vector_db.
  cbn. unfold Chroma.logged. cbn. by rewrite He, <- app_assoc.
Qed.

End Clear.

(** After a [clear_all] that went through, a known file is ingested as
    if it were new. *)
Lemma process_document_after_clear_all (w w' : World) (file_path : string)
    (docs : list Document) (content : list byte) :
  clear_all w = (Ok tt, w') →
  files w !! file_path = Some content →
  docs ≠ [] →
  Chroma.entries (vector_db w') = []
  ∧ processed_files w' = ∅
  ∧ cache_file w' = Some (JsonOf ∅)
  ∧ ∃ w'', process_document file_path docs w' = (Ok true, w'').
Proof.
  intros Hclear Hf Hd.
  destruct (decide (Chroma.entries (vector_db w) = [])) as [He|He].
  - by rewrite clear_all_empty in Hclear.
  - rewrite clear_all_nonempty in Hclear by done.
    injection Hclear as <-. repeat split. eexists.
    apply (process_document_replace _ _ _ content); [done| |done].
    unfold cached. cbn [processed_files]. by rewrite lookup_empty.
Qed.

(** ** The skip path *)

(** C1.  When the cache holds a record for the path whose ['hash'] is the
    hash of the bytes now on disk, [process_document] returns [False] and
    the state it ends in is the state it started from: the entries of the
    store (for this path and every other), the journal of store calls,
    [processed_files] and the cache file are all as before. *)
Theorem process_document_unchanged_is_noop
    (w : World) (file_path : string) (docs : list Document)
    (content : list byte) (record : Dict) :
  files w !! file_path = Some content →
  processed_files w !! file_path = Some record →
  record !! "hash" = Some (PStr (SHA256.hexdigest content)) →
  process_document file_path docs w = (Ok false, w)
  ∧ entries_of file_path (process_document file_path docs w).2
    = entries_of file_path w
  ∧ processed_files (process_document file_path docs w).2 = processed_files w
  ∧ cache_file (process_document file_path docs w).2 = cache_file w.
Proof.
  intros Hf Hr Hh.
  assert (process_document file_path docs w = (Ok false, w)) as ->; [|done].
  apply (process_document_skip file_path docs w content Hf).
  unfold cached. by rewrite Hr.
Qed.

Lemma process_document_unchanged_is_noop_witness :
  process_document "doc.pdf" Sample.chunks Sample.ingested
  = (Ok false, Sample.ingested).
Proof.
  apply (process_document_unchanged_is_noop Sample.ingested "doc.pdf"
           Sample.chunks (bytes_of_string "%PDF-1.4 first")
           (cache_record
              (SHA256.hexdigest (bytes_of_string "%PDF-1.4 first")) 2
              "2024-05-01T10:00:00"));
    vm_compute; reflexivity.
Defined.

(** ** The replace path *)





(** ** Processing twice *)




(** ** An empty chunk list *)




(** ** Clearing the store *)

(** C6.  [clear_all] hands [self.vector_db.get()['ids']] to [delete]
    without looking at it.  On a store that holds entries this empties
    the store and the cache; run again on the store it has just emptied,
    the id list is empty, the store rejects it and [clear_all] raises.
    The same happens on a store that never held an entry. *)
Theorem clear_all_on_empty_store_raises :
  clear_all Sample.ingested = (Ok tt, Sample.cleared)
  ∧ Chroma.entries (vector_db Sample.cleared) = []
  ∧ processed_files Sample.cleared = ∅
  ∧ (clear_all Sample.cleared).1
    = Raised (ValueError "Expected IDs to be a non-empty list")
  ∧ Chroma.entries (vector_db Sample.loaded) = []
  ∧ (clear_all Sample.loaded).1
    = Raised (ValueError "Expected IDs to be a non-empty list").
Proof. vm_compute. repeat split. Qed.

(** ** Loading the cache *)

(** C7.  When the cache file does not exist, [_load_cache] sets
    [processed_files] to the empty mapping and writes the file.  When
    the file exists and [json.load] cannot parse it, the decode error is
    raised to the caller and the state stays as it was: the cache is not
    reset. *)
Theorem load_cache_absent_or_malformed (w : World) :
  (cache_file w = None →
   ∃ w', _load_cache w = (Ok tt, w')
     ∧ processed_files w' = ∅
     ∧ cache_file w' = Some (JsonOf ∅))
  ∧ (∀ raw, cache_file w = Some (Malformed raw) →
       _load_cache w = (Raised JSONDecodeError, w)).
Proof.
  split.
  - intros Hc. eexists. split.
    { unfold _load_cache. run_step (run_gets cache_file w).
      rewrite Hc. reflexivity. }
    done.
  - intros raw Hc.
    unfold _load_cache. run_step (run_gets cache_file w). by rewrite Hc.
Qed.

Lemma load_cache_absent_or_malformed_witness :
  (∃ w', _load_cache Sample.initial = (Ok tt, w')
     ∧ processed_files w' = ∅
     ∧ cache_file w' = Some (JsonOf ∅))
  ∧ _load_cache Sample.corrupted = (Raised JSONDecodeError, Sample.corrupted).
Proof.
  split.
  - apply (load_cache_absent_or_malformed Sample.initial). reflexivity.
  - apply (proj2 (load_cache_absent_or_malformed Sample.corrupted)
             "{'doc.pdf': ").
    reflexivity.
Defined.

(** ** The fingerprint *)

(** C8.  [_get_file_hash] depends on the bytes of the file alone: two
    files with the same bytes, under whatever paths and in whatever
    states, get the same hash.  The hash is a string of 64 hexadecimal
    digits, the eight 32-bit words of the SHA-256 digest. *)
Theorem get_file_hash_deterministic_hex
    (w1 w2 : World) (path1 path2 : string) (content : list byte) :
  files w1 !! path1 = Some content →
  files w2 !! path2 = Some content →
  ∃ h, _get_file_hash path1 w1 = (Ok h, w1)
    ∧ _get_file_hash path2 w2 = (Ok h, w2)
    ∧ String.length h = 64%nat
    ∧ Forall (fun c => c ∈ SHA256.hex_alphabet) (list_ascii_of_string h)
    ∧ ∃ r, Forall SHA256.word32 (SHA256.regs_list r)
        ∧ h = string_of_list_ascii (SHA256.hex_regs r).
Proof.
  intros H1 H2. exists (SHA256.hexdigest content).
  split; [by apply get_file_hash_run|].
  split; [by apply get_file_hash_run|].
  split; [apply SHA256Facts.length_hexdigest|].
  split; [apply SHA256Facts.hexdigest_in_alphabet|].
  exists (SHA256.digest content).
  split; [apply SHA256Facts.digest_word32|done].
Qed.

Lemma get_file_hash_deterministic_hex_witness :
  ∃ h, _get_file_hash "doc.pdf" Sample.initial = (Ok h, Sample.initial)
    ∧ _get_file_hash "doc.pdf" Sample.ingested = (Ok h, Sample.ingested)
    ∧ String.length h = 64%nat.
Proof.
  destruct (get_file_hash_deterministic_hex Sample.initial Sample.ingested
              "doc.pdf" "doc.pdf" (bytes_of_string "%PDF-1.4 first"))
    as (h & H1 & H2 & Hlen & _).
  - vm_compute. reflexivity.
  - vm_compute. reflexivity.
  - exists h. exact (conj H1 (conj H2 Hlen)).
Defined.

(** ** Looking up a file *)

(** C9.  [get_file_info] returns the cache record of the path when
    [processed_files] holds one and the empty record [{}] when it holds
    none, and it ends in the state it started from: [processed_files],
    the cache file and the store are not touched. *)
Theorem get_file_info_pure (w : World) (file_path : string) :
  (∀ record, processed_files w !! file_path = Some record →
             get_file_info file_path w = (Ok record, w))
  ∧ (processed_files w !! file_path = None →
     get_file_info file_path w = (Ok ∅, w))
  ∧ (get_file_info file_path w).2 = w.
Proof.
  unfold get_file_info. rewrite run_gets. cbn [snd].
  split; [|split; [|done]].
  - by intros record ->.
  - by intros ->.
Qed.

Lemma get_file_info_pure_witness :
  get_file_info "doc.pdf" Sample.ingested
  = (Ok (cache_record
           (SHA256.hexdigest (bytes_of_string "%PDF-1.4 first")) 2
           "2024-05-01T10:00:00"), Sample.ingested)
  ∧ get_file_info "other.pdf" Sample.ingested = (Ok ∅, Sample.ingested).
Proof.
  split.
  - apply (get_file_info_pure Sample.ingested "doc.pdf").
    vm_compute. reflexivity.
  - apply (get_file_info_pure Sample.ingested "other.pdf").
    vm_compute. reflexivity.
Defined.

(** ** The removal step never deletes nothing *)




(** * Further properties of the manager *)

(** ** A file that cannot be read *)

(** X1.  The hash is taken before anything else: when the file cannot be
    opened, [_get_file_hash] and with it [process_document] raise
    [FileNotFoundError], and the store, the journal of store calls,
    [processed_files] and the cache file are as before. *)
Theorem process_document_unreadable_file
    (w : World) (file_path : string) (docs : list Document) :
  files w !! file_path = None →
  _get_file_hash file_path w = (Raised (FileNotFoundError file_path), w)
  ∧ process_document file_path docs w
    = (Raised (FileNotFoundError file_path), w).
Proof.
  intros Hf. split; [|by apply process_document_missing].
  assert (read_bytes file_path w = (Raised (FileNotFoundError file_path), w))
    as Hr by (unfold read_bytes; by rewrite Hf).
  unfold _get_file_hash. by run_step Hr.
Qed.

Lemma process_document_unreadable_file_witness :
  process_document "gone.pdf" Sample.chunks Sample.ingested
  = (Raised (FileNotFoundError "gone.pdf"), Sample.ingested).
Proof.
  apply (process_document_unreadable_file Sample.ingested "gone.pdf"
           Sample.chunks).
  vm_compute. reflexivity.
Defined.

(** ** What a call leaves alone *)

Lemma purged_subset (file_path : string) (c : Chroma.Collection)
    (e : Chroma.Entry) :
  e ∈ Chroma.entries (purged file_path c) → e ∈ Chroma.entries c.
Proof.
  unfold purged.
  destruct (ids_from_file file_path c) as [|i ids]; [done|].
  cbn. by intros [_ ?]%list_elem_of_filter.
Qed.

Lemma NoDup_fmap_elem_inj {A B : Type} (f : A → B) (l : list A) (x y : A) :
  NoDup (f <$> l) → x ∈ l → y ∈ l → f x = f y → x = y.
Proof.
  induction l as [|a l IH]; intros Hnd Hx Hy Hxy.
  { by apply not_elem_of_nil in Hx. }
  cbn in Hnd. apply NoDup_cons in Hnd as [Ha Hnd].
  apply elem_of_cons in Hx as [->|Hx]; apply elem_of_cons in Hy as [->|Hy].
  - done.
  - exfalso. apply Ha. rewrite Hxy. apply list_elem_of_fmap. by exists y.
  - exfalso. apply Ha. rewrite <- Hxy. apply list_elem_of_fmap. by exists x.
  - by apply IH.
Qed.

Lemma purged_others (file_path : string) (c : Chroma.Collection)
    (e : Chroma.Entry) :
  NoDup (Chroma.entry_id <$> Chroma.entries c) →
  ¬ from_file file_path e →
  e ∈ Chroma.entries (purged file_path c) ↔ e ∈ Chroma.entries c.
Proof.
  intros Hnd Hf. split; [apply purged_subset|].
  intros He. apply purged_keeps_others; [|done..].
  intros e1 e2 H1 H2 Hid Hf1.
  by rewrite <- (NoDup_fmap_elem_inj Chroma.entry_id _ e1 e2 Hnd H1 H2 Hid).
Qed.

(** X2.  With distinct ids in the store, a call of [process_document]
    for one file, however it ends, neither removes nor adds an entry of
    another file, leaves the cache records of all other paths as they
    are, and does not write to the files on disk. *)
Theorem process_document_frame
    (w : World) (file_path : string) (docs : list Document) :
  NoDup (Chroma.entry_id <$> Chroma.entries (vector_db w)) →
  (∀ e, ¬ from_file file_path e →
        e ∈ Chroma.entries (vector_db (process_document file_path docs w).2)
        ↔ e ∈ Chroma.entries (vector_db w))
  ∧ (∀ other, other ≠ file_path →
        processed_files (process_document file_path docs w).2 !! other
        = processed_files w !! other)
  ∧ files (process_document file_path docs w).2 = files w.
Proof.
  intros Hnd.
  destruct (files w !! file_path) as [content|] eqn:Hfile.
  - destruct (process_document_cases file_path docs w content Hfile)
      as [[_ ->]|[(_ & _ & ->)|(_ & _ & ->)]]; cbn [snd].
    + done.
    + split; [|split; [|done]].
      * intros e Hf. unfold replaced. cbn [vector_db Chroma.entries].
        rewrite elem_of_app, (purged_others _ _ _ Hnd Hf).
        split; [|by left]. intros [?|Hnew]; [done|].
        by apply new_entries_stamped in Hnew as [? _].
      * intros other Hne. unfold replaced. cbn [processed_files].
        by rewrite lookup_insert_ne.
    + split; [|done]. intros e Hf. cbn. by apply purged_others.
  - by rewrite process_document_missing.
Qed.

Lemma process_document_frame_witness :
  processed_files
    (process_document "doc.pdf" Sample.chunks Sample.edited).2 !! "other.pdf"
  = processed_files Sample.edited !! "other.pdf".
Proof.
  apply (process_document_frame Sample.edited "doc.pdf" Sample.chunks).
  - vm_compute. repeat constructor; intros Hin;
      repeat (apply elem_of_cons in Hin as [Hin|Hin]; [discriminate|]);
      by apply not_elem_of_nil in Hin.
  - discriminate.
Defined.

(** ** Store and cache agree, whatever happens *)

Lemma from_file_one_path (p q : string) (e : Chroma.Entry) :
  from_file p e → from_file q e → p = q.
Proof. unfold from_file. intros -> [=]. done. Qed.

Lemma coherent_after_purge (w : World) (file_path : string)
    (es : list Chroma.Entry) (n : nat) (log : list Chroma.Call) :
  coherent w →
  (∀ e, e ∈ es → e ∈ Chroma.entries (purged file_path (vector_db w))) →
  coherent (with_vector_db (Chroma.mkCollection es n log) w).
Proof.
  intros Hw Hes e q He Hq. cbn in He.
  apply Hes, purged_subset in He. by apply (Hw e q).
Qed.

Lemma coherent_replaced (w : World) (file_path h : string)
    (docs : list Document) :
  coherent w → coherent (replaced file_path h docs w).
Proof.
  intros Hw e q He Hq.
  unfold replaced in He. cbn [vector_db Chroma.entries] in He.
  apply elem_of_app in He as [He|He].
  - pose proof (purged_none_left _ _ _ He) as Hnot.
    apply purged_subset in He.
    destruct (Hw e q He Hq) as (h0 & Hh0 & Hc).
    exists h0. split; [done|].
    unfold cached, replaced in *. cbn [processed_files].
    rewrite lookup_insert_ne; [done|]. by intros ->.
  - apply new_entries_stamped in He as [Hp Hh].
    rewrite <- (from_file_one_path _ _ _ Hp Hq).
    exists h. split; [done|]. apply replaced_cached.
Qed.

(** X3.  The agreement between store and cache is kept by every call of
    [process_document] and of [clear_all], also by one that raises: if
    every entry carried the hash cached for its file before the call, it
    does so after it. *)
Theorem coherent_preserved
    (w : World) (file_path : string) (docs : list Document) :
  coherent w →
  coherent (process_document file_path docs w).2
  ∧ coherent (clear_all w).2.
Proof.
  intros Hw. split.
  - destruct (files w !! file_path) as [content|] eqn:Hfile.
    + destruct (process_document_cases file_path docs w content Hfile)
        as [[_ ->]|[(_ & _ & ->)|(_ & _ & ->)]]; cbn [snd].
      * done.
      * by apply coherent_replaced.
      * by apply (coherent_after_purge w file_path).
    + by rewrite process_document_missing.
  - destruct (decide (Chroma.entries (vector_db w) = [])) as [He|He].
    + rewrite clear_all_empty by done. intros e q Hin.
      cbn in Hin. by apply not_elem_of_nil in Hin.
    + rewrite clear_all_nonempty by done. intros e q Hin.
      cbn in Hin. by apply not_elem_of_nil in Hin.
Qed.

Lemma coherent_preserved_witness :
  coherent (process_document "doc.pdf" Sample.chunks Sample.loaded).2.
Proof.
  apply (coherent_preserved Sample.loaded "doc.pdf" Sample.chunks).
  intros e q Hin. vm_compute in Hin. by apply not_elem_of_nil in Hin.
Defined.

(** ** The cache file across restarts *)

Lemma init_run_json (w : World) (stale m : gmap string Dict) :
  cache_file w = Some (JsonOf m) →
  __init__ stale w = (Ok tt, with_processed_files m w).
Proof.
  intros Hc. unfold __init__.
  run_step (run_modify (with_processed_files stale) w).
  unfold _load_cache.
  run_step (run_gets cache_file (with_processed_files stale w)).
  cbn [cache_file with_processed_files]. by rewrite Hc.
Qed.

(** X4.  What [process_document] saved is what a later manager loads:
    after a call that returned [True], a manager constructed anew over
    the same directory ends with the same [processed_files], and its
    [process_document] on the unchanged file returns [False] without
    touching the store. *)
Theorem skip_survives_restart
    (w w' : World) (file_path : string) (docs : list Document)
    (stale : gmap string Dict) :
  process_document file_path docs w = (Ok true, w') →
  __init__ stale w' = (Ok tt, w')
  ∧ process_document file_path docs w' = (Ok false, w').
Proof.
  intros (content & Hf & _ & _ & ->)%process_document_true_inv. split.
  - by rewrite (init_run_json _ stale _ (replaced_persisted _ _ _ _)).
  - apply (process_document_skip _ _ _ content); [done|].
    apply replaced_cached.
Qed.

Lemma skip_survives_restart_witness :
  __init__ ∅ Sample.ingested = (Ok tt, Sample.ingested)
  ∧ process_document "doc.pdf" Sample.chunks Sample.ingested
    = (Ok false, Sample.ingested).
Proof.
  apply (skip_survives_restart Sample.loaded Sample.ingested "doc.pdf"
           Sample.chunks ∅).
  vm_compute. reflexivity.
Defined.

(** X5.  Saving and loading are inverse to each other.  After
    [_save_cache], constructing a manager anew restores exactly the
    [processed_files] that were saved and leaves the file as written;
    and a [_load_cache] that went through changes nothing when it is run
    again. *)
Theorem save_load_round_trip (w : World) (stale : gmap string Dict) :
  (_save_cache;; __init__ stale) w = (Ok tt, (_save_cache w).2)
  ∧ processed_files (_save_cache w).2 = processed_files w
  ∧ (∀ w1, _load_cache w = (Ok tt, w1) → _load_cache w1 = (Ok tt, w1)).
Proof.
  split; [|split; [done|]].
  - assert (_save_cache w
            = (Ok tt, with_cache_file (Some (JsonOf (processed_files w))) w))
      as Hs by reflexivity.
    run_step Hs. rewrite Hs. cbn [snd].
    by rewrite (init_run_json _ stale (processed_files w)).
  - intros w1. unfold _load_cache.
    run_step (run_gets cache_file w).
    destruct (cache_file w) as [[m|raw]|] eqn:Hc.
    + intros [= <-]. run_step (run_gets cache_file (with_processed_files m w)).
      cbn [cache_file with_processed_files]. by rewrite Hc.
    + done.
    + intros [= <-]. reflexivity.
Qed.

Lemma save_load_round_trip_witness :
  (_save_cache;; __init__ ∅) Sample.edited
  = (Ok tt, (_save_cache Sample.edited).2)
  ∧ _load_cache Sample.loaded = (Ok tt, Sample.loaded).
Proof.
  split.
  - apply (save_load_round_trip Sample.edited ∅).
  - apply (proj2 (proj2 (save_load_round_trip Sample.initial ∅))).
    vm_compute. reflexivity.
Defined.

(** ** What ends up in the store *)




(** X7.  After a call that returned [True], the ['num_chunks'] that
    [get_file_info] reports for the path is the number of entries the
    store holds for it. *)
Theorem num_chunks_counts_entries
    (w w' : World) (file_path : string) (docs : list Document) :
  process_document file_path docs w = (Ok true, w') →
  ∃ info, get_file_info file_path w' = (Ok info, w')
    ∧ info !! "num_chunks"
      = Some (PInt (Z.of_nat (length (entries_of file_path w')))).
Proof.
  intros (content & Hf & _ & _ & ->)%process_document_true_inv.
  exists (cache_record (SHA256.hexdigest content) (length docs)
            (now_isoformat w)).
  split.
  { unfold get_file_info. rewrite run_gets. by rewrite replaced_cache. }
  rewrite replaced_count. unfold cache_record.
  rewrite lookup_insert_ne by done. apply lookup_insert_eq.
Qed.

Lemma num_chunks_counts_entries_witness :
  ∃ info,
    get_file_info "doc.pdf" Sample.ingested = (Ok info, Sample.ingested)
    ∧ info !! "num_chunks"
      = Some (PInt (Z.of_nat (length (entries_of "doc.pdf" Sample.ingested)))).
Proof.
  apply (num_chunks_counts_entries Sample.loaded Sample.ingested "doc.pdf"
           Sample.chunks).
  vm_compute. reflexivity.
Defined.

(** ** When clearing goes through *)

(** X8.  [clear_all] returns normally exactly on a store that holds at
    least one entry: then the store is empty afterwards,
    [processed_files] is empty and the cache file holds the empty
    mapping.  On a store without entries it raises [ValueError], and
    [processed_files] and the cache file keep what they held. *)
Theorem clear_all_needs_entries (w : World) :
  (Chroma.entries (vector_db w) ≠ [] →
   ∃ w', clear_all w = (Ok tt, w')
     ∧ Chroma.entries (vector_db w') = []
     ∧ processed_files w' = ∅
     ∧ cache_file w' = Some (JsonOf ∅)
     ∧ files w' = files w)
  ∧ (Chroma.entries (vector_db w) = [] →
     ∃ msg w', clear_all w = (Raised (ValueError msg), w')
       ∧ processed_files w' = processed_files w
       ∧ cache_file w' = cache_file w).
Proof.
  split; intros He.
  - eexists. split; [by apply clear_all_nonempty|done].
  - do 2 eexists. split; [by apply clear_all_empty|done].
Qed.

Lemma clear_all_needs_entries_witness :
  (∃ w', clear_all Sample.ingested = (Ok tt, w')
     ∧ Chroma.entries (vector_db w') = []
     ∧ processed_files w' = ∅
     ∧ cache_file w' = Some (JsonOf ∅)
     ∧ files w' = files Sample.ingested)
  ∧ (∃ msg w', clear_all Sample.loaded = (Raised (ValueError msg), w')
       ∧ processed_files w' = processed_files Sample.loaded
       ∧ cache_file w' = cache_file Sample.loaded).
Proof.
  split.
  - apply (proj1 (clear_all_needs_entries Sample.ingested)).
    vm_compute. discriminate.
  - apply (proj2 (clear_all_needs_entries Sample.loaded)).
    vm_compute. reflexivity.
Defined.

(** * Loading and splitting a PDF *)

Section PDFLoading.

Import PDF.

Variable magic_from_file : gmap string (list byte) → string → string.
Variable PyPDFLoader_load :
  gmap string (list byte) → string → result (list Document).
Variable split_documents : Z → Z → list Document → result (list Document).

Local Abbreviation load :=
  (load_and_process_pdf magic_from_file PyPDFLoader_load split_documents).
Local Abbreviation body :=
  (load_and_process_pdf_body magic_from_file PyPDFLoader_load
     split_documents).

Variables (pdf_path : string) (chunk_size chunk_overlap : Z).

(** Every way the body of the [try] block can end. *)
Lemma load_and_process_pdf_body_cases (fs : gmap string (list byte)) :
  (fs !! pdf_path = None
   ∧ body pdf_path chunk_size chunk_overlap fs
     = Raises (PDFProcessingError ("File not found: " ++ pdf_path)%string))
  ∨ (is_Some (fs !! pdf_path)
     ∧ magic_from_file fs pdf_path ≠ "application/pdf"
     ∧ body pdf_path chunk_size chunk_overlap fs
       = Raises (PDFProcessingError
                   ("Invalid file type: " ++ magic_from_file fs pdf_path
                      ++ ". Expected PDF file.")%string))
  ∨ (is_Some (fs !! pdf_path)
     ∧ magic_from_file fs pdf_path = "application/pdf"
     ∧ ((∃ e, PyPDFLoader_load fs pdf_path = Raises e
            ∧ body pdf_path chunk_size chunk_overlap fs = Raises e)
        ∨ (PyPDFLoader_load fs pdf_path = Returns []
           ∧ body pdf_path chunk_size chunk_overlap fs
             = Raises (PDFProcessingError
                         ("No content found in PDF: " ++ pdf_path)%string))
        ∨ (∃ pages, PyPDFLoader_load fs pdf_path = Returns pages
             ∧ pages ≠ []
             ∧ ((∃ e, split_documents chunk_size chunk_overlap pages
                      = Raises e
                    ∧ body pdf_path chunk_size chunk_overlap fs = Raises e)
                ∨ (split_documents chunk_size chunk_overlap pages
                   = Returns []
                   ∧ body pdf_path chunk_size chunk_overlap fs
                     = Raises (PDFProcessingError
                                 "Failed to create text chunks from PDF"))
                ∨ (∃ chunks,
                     split_documents chunk_size chunk_overlap pages
                     = Returns chunks
                     ∧ chunks ≠ []
                     ∧ body pdf_path chunk_size chunk_overlap fs
                       = Returns (set_source_file pdf_path <$> chunks)))))).
Proof.
  unfold load_and_process_pdf_body, validate_pdf.
  destruct (decide (fs !! pdf_path = None)) as [Hnone|Hsome]; [by left|].
  right. apply not_eq_None_Some in Hsome.
  destruct (decide (magic_from_file fs pdf_path ≠ "application/pdf"))
    as [Hmime|Hmime]; [by left|].
  right. apply dec_stable in Hmime. split; [done|]. split; [done|].
  cbn [bind].
  destruct (PyPDFLoader_load fs pdf_path) as [[|page pages]|e] eqn:Hload;
    cbn [bind].
  - right. by left.
  - right. right. exists (page :: pages). split; [done|]. split; [done|].
    destruct (split_documents chunk_size chunk_overlap (page :: pages))
      as [[|chunk chunks]|e] eqn:Hsplit; cbn [bind].
    + right. by left.
    + right. right. by exists (chunk :: chunks).
    + left. by exists e.
  - left. by exists e.
Qed.

(** X9.  What [load_and_process_pdf] returns is never an empty list.
    The file exists and was detected as [application/pdf]; the loader
    gave at least one page and the splitter at least one chunk; and the
    result is the splitter's chunks, each with ['source_file'] set to
    the last component of the path and nothing else changed. *)
Theorem load_and_process_pdf_returns
    (fs : gmap string (list byte)) (docs : list Document) :
  load pdf_path chunk_size chunk_overlap fs = Returns docs →
  docs ≠ []
  ∧ is_Some (fs !! pdf_path)
  ∧ magic_from_file fs pdf_path = "application/pdf"
  ∧ (∀ d, d ∈ docs →
          metadata d !! "source_file" = Some (PStr (basename pdf_path)))
  ∧ ∃ pages chunks,
      PyPDFLoader_load fs pdf_path = Returns pages ∧ pages ≠ []
      ∧ split_documents chunk_size chunk_overlap pages = Returns chunks
      ∧ page_content <$> docs = page_content <$> chunks
      ∧ ∀ i d c, docs !! i = Some d → chunks !! i = Some c →
          ∀ k, k ≠ "source_file" → metadata d !! k = metadata c !! k.
Proof.
  unfold load_and_process_pdf.
  destruct (load_and_process_pdf_body_cases fs)
    as [[_ Hb]|[(_ & _ & Hb)|(Hex & Hmime & Hb)]];
    [by rewrite Hb..|].
  destruct Hb as [(e & _ & Hb)|[[_ Hb]|(pages & Hload & Hpages & Hb)]];
    [by rewrite Hb..|].
  destruct Hb as [(e & _ & Hb)|[[_ Hb]|(chunks & Hsplit & Hchunks & Hb)]];
    [by rewrite Hb..|].
  rewrite Hb. intros [= <-].
  split. { by destruct chunks. }
  split; [done|]. split; [done|]. split.
  { intros d (c & -> & _)%list_elem_of_fmap. apply lookup_insert_eq. }
  exists pages, chunks. split; [done|]. split; [done|]. split; [done|].
  split. { by rewrite <- list_fmap_compose. }
  intros i d c Hd Hc k Hk.
  rewrite list_lookup_fmap, Hc in Hd. injection Hd as <-.
  cbn [set_source_file metadata]. by rewrite lookup_insert_ne.
Qed.

(** X10.  Whatever goes wrong, [load_and_process_pdf] raises a
    [PDFProcessingError] whose message is ["Failed to process PDF "],
    the path, [": "] and the text of the cause: the file is missing, it
    is not detected as a PDF, the loader raised or found no page, or the
    splitter raised or made no chunk. *)
Theorem load_and_process_pdf_raises
    (fs : gmap string (list byte)) (e : exception) :
  load pdf_path chunk_size chunk_overlap fs = Raises e →
  ∃ cause,
    e = PDFProcessingError
          ("Failed to process PDF " ++ pdf_path ++ ": " ++ cause)%string
    ∧ ((fs !! pdf_path = None ∧ cause = ("File not found: " ++ pdf_path)%string)
       ∨ (is_Some (fs !! pdf_path)
          ∧ magic_from_file fs pdf_path ≠ "application/pdf"
          ∧ cause = ("Invalid file type: " ++ magic_from_file fs pdf_path
                       ++ ". Expected PDF file.")%string)
       ∨ (∃ e0, PyPDFLoader_load fs pdf_path = Raises e0 ∧ cause = str e0)
       ∨ (PyPDFLoader_load fs pdf_path = Returns []
          ∧ cause = ("No content found in PDF: " ++ pdf_path)%string)
       ∨ (∃ pages e0, PyPDFLoader_load fs pdf_path = Returns pages
            ∧ split_documents chunk_size chunk_overlap pages = Raises e0
            ∧ cause = str e0)
       ∨ (∃ pages, PyPDFLoader_load fs pdf_path = Returns pages
            ∧ split_documents chunk_size chunk_overlap pages = Returns []
            ∧ cause = "Failed to create text chunks from PDF")).
Proof.
  unfold load_and_process_pdf.
  destruct (load_and_process_pdf_body_cases fs)
    as [[Hnone Hb]|[(Hex & Hmime & Hb)|(Hex & Hmime & Hb)]].
  { rewrite Hb. intros [= <-]. eexists. split; [done|]. by left. }
  { rewrite Hb. intros [= <-]. eexists. split; [done|]. right. by left. }
  destruct Hb as [(e0 & Hload & Hb)|[[Hload Hb]|(pages & Hload & _ & Hb)]].
  { rewrite Hb. intros [= <-]. eexists. split; [done|].
    do 2 right. left. by exists e0. }
  { rewrite Hb. intros [= <-]. eexists. split; [done|].
    do 3 right. by left. }
  destruct Hb as [(e0 & Hsplit & Hb)|[[Hsplit Hb]|(chunks & _ & _ & Hb)]].
  - rewrite Hb. intros [= <-]. eexists. split; [done|].
    do 4 right. left. by exists pages, e0.
  - rewrite Hb. intros [= <-]. eexists. split; [done|].
    do 5 right. by exists pages.
  - by rewrite Hb.
Qed.


End PDFLoading.

Lemma load_and_process_pdf_returns_witness :
  ∃ docs,
    PDF.load_and_process_pdf PDF.sample_magic PDF.sample_loader
      PDF.sample_splitter "docs/temp/doc.pdf" PDF.default_chunk_size
      PDF.default_chunk_overlap PDF.sample_fs = PDF.Returns docs
    ∧ docs ≠ []
    ∧ ∀ d, d ∈ docs → metadata d !! "source_file" = Some (PStr "doc.pdf").
Proof.
  eexists. split; [vm_compute; reflexivity|].
  destruct (load_and_process_pdf_returns PDF.sample_magic PDF.sample_loader
              PDF.sample_splitter "docs/temp/doc.pdf" PDF.default_chunk_size
              PDF.default_chunk_overlap PDF.sample_fs
              [mkDocument "page text"
                 (<["source_file" := PStr "doc.pdf"]>
                    (<["source" := PStr "docs/temp/doc.pdf"]>
                       {[ "page" := PInt 0 ]}))])
    as (Hne & _ & _ & Hsrc & _).
  - vm_compute. reflexivity.
  - split; [exact Hne|exact Hsrc].
Defined.

Lemma load_and_process_pdf_raises_witness :
  ∃ cause,
    PDF.PDFProcessingError
      "Failed to process PDF docs/notes.txt: Invalid file type: text/plain. Expected PDF file."
    = PDF.PDFProcessingError
        ("Failed to process PDF " ++ "docs/notes.txt" ++ ": " ++ cause)%string.
Proof.
  destruct (load_and_process_pdf_raises PDF.sample_magic PDF.sample_loader
              PDF.sample_splitter "docs/notes.txt" PDF.default_chunk_size
              PDF.default_chunk_overlap PDF.sample_fs
              (PDF.PDFProcessingError
                 "Failed to process PDF docs/notes.txt: Invalid file type: text/plain. Expected PDF file."))
    as (cause & Hcause & _).
  - vm_compute. reflexivity.
  - exists cause. exact Hcause.
Defined.


(** ** The name a chunk is filed under *)

Lemma after_last_slash_split (p acc pre : list ascii) :
  "/"%char ∉ acc →
  (pre = [] ∨ ∃ d, pre = d ++ ["/"%char]) →
  ("/"%char ∉ PDF.after_last_slash p acc)
  ∧ ∃ dir, pre ++ acc ++ p = dir ++ PDF.after_last_slash p acc
      ∧ (dir = [] ∨ ∃ d, dir = d ++ ["/"%char]).
Proof.
  revert acc pre. induction p as [|c rest IH]; intros acc pre Hacc Hpre.
  - cbn. split; [done|]. exists pre. by rewrite app_nil_r.
  - cbn [PDF.after_last_slash].
    destruct (decide (c = "/"%char)) as [->|Hc].
    + destruct (IH [] (pre ++ acc ++ ["/"%char])) as (Hno & dir & Heq & Hdir).
      { apply not_elem_of_nil. }
      { right. exists (pre ++ acc). by rewrite <- app_assoc. }
      split; [done|]. exists dir. split; [|done].
      rewrite <- Heq. cbn. by rewrite <- !app_assoc.
    + destruct (IH (acc ++ [c]) pre) as (Hno & dir & Heq & Hdir).
      { intros [?|Hin]%elem_of_app; [done|].
        apply list_elem_of_singleton in Hin. by apply Hc. }
      { done. }
      split; [done|]. exists dir. split; [|done].
      rewrite <- Heq. by rewrite <- !app_assoc.
Qed.

Example basename_of_nested_path :
  PDF.basename "docs/temp/doc.pdf" = "doc.pdf".
Proof. reflexivity. Qed.

Example basename_of_directory : PDF.basename "docs/temp/" = "".
Proof. reflexivity. Qed.

(** X12.  The ['source_file'] that [load_and_process_pdf] puts on a
    chunk is the last component of the path: it contains no ['/'], and
    the path is this name preceded by nothing or by a prefix that ends
    in ['/']. *)
Theorem source_file_is_last_component (pdf_path : string) (doc : Document) :
  ∃ name,
    metadata (PDF.set_source_file pdf_path doc) !! "source_file"
    = Some (PStr name)
    ∧ ("/"%char ∉ list_ascii_of_string name)
    ∧ ∃ dir, list_ascii_of_string pdf_path = dir ++ list_ascii_of_string name
        ∧ (dir = [] ∨ ∃ d, dir = d ++ ["/"%char]).
Proof.
  exists (PDF.basename pdf_path). split.
  { unfold PDF.set_source_file. cbn [metadata]. apply lookup_insert_eq. }
  unfold PDF.basename. rewrite list_ascii_of_string_of_list_ascii.
  destruct (after_last_slash_split (list_ascii_of_string pdf_path) [] [])
    as (Hno & dir & Heq & Hdir).
  { apply not_elem_of_nil. }
  { by left. }
  split; [done|]. exists dir. by split.
Qed.
